(** * audioapi-poc: the [olivia:component:audio] streaming API

    A shallow embedding of [py_audioin_api/api.py]: the server-side
    handler [AudioRPCService.GetAudio], the client [AudioClient] with its
    lazily started asynchronous generator [read], and the sequential
    behaviour of the RPC transport the two sides talk through.

    Protobuf messages are finite maps from field names to values, the
    server stream and the client generator are explicit state machines,
    and exceptions are values of an error type. *)

From stdpp Require Import gmap strings list sorting.

Local Open Scope string_scope.
Local Open Scope list_scope.
Local Open Scope Z_scope.

(** ** Wire messages *)

Module Wire.

(** A scalar protobuf value. *)
Inductive Value : Type :=
| VStr (s : string)
| VInt (z : Z).

#[global] Instance Value_eq_dec : EqDecision Value.
Proof. solve_decision. Defined.

(** A message is the finite map of the keywords passed to its
    constructor; the generated classes of [grpc/audio_pb2] are not part
    of the sources, so no schema is fixed here.  (A proto3 message does
    not tell a field passed with its default value from one not passed:
    the readers below give the same for both.) *)
Abbreviation Message := (gmap string Value).

(** Reading an integer field: proto3 gives 0 for a field that is not set. *)
Definition int_field (f : string) (m : Message) : Z :=
  match m !! f with
  | Some (VInt z) => z
  | _ => 0
  end.

(** Reading a string field: proto3 gives the empty string when not set. *)
Definition str_field (f : string) (m : Message) : string :=
  match m !! f with
  | Some (VStr s) => s
  | _ => ""
  end.

(** [carries f m]: the keyword [f] was passed when [m] was built. *)
Definition carries (f : string) (m : Message) : bool :=
  bool_decide (is_Some (m !! f)).

(** [GetAudioRequest(name=..., duration_seconds=..., codec=...,
    max_duration_seconds=..., previous_timestamp=...)], the keyword
    arguments exactly as [AudioClient.get_audio] passes them. *)
Definition GetAudioRequest (name : string) (duration_seconds : Z)
    (codec : string) (max_duration_seconds previous_timestamp : Z) : Message :=
  <["name" := VStr name]>
    (<["duration_seconds" := VInt duration_seconds]>
      (<["codec" := VStr codec]>
        (<["max_duration_seconds" := VInt max_duration_seconds]>
          (<["previous_timestamp" := VInt previous_timestamp]> ∅)))).

End Wire.
Export Wire.

(** Modelled from the spec: the [AudioChunk] message of the absent
    [grpc/audio_pb2], with the fields the data model gives it: an opaque
    payload, the timestamp of its last sample and a sequence number. *)
Record AudioChunk : Type := mkChunk {
  payload : list Byte.byte;
  timestamp : Z;
  sequenceNumber : Z
}.

#[global] Instance byte_eq_dec : EqDecision Byte.byte := Byte.byte_eq_dec.

#[global] Instance AudioChunk_eq_dec : EqDecision AudioChunk.
Proof. solve_decision. Defined.

(** ** Status codes and exceptions *)

Module Grpc.

(** [grpclib.const.Status]. *)
Inductive Status : Type :=
| OK | CANCELLED | UNKNOWN | INVALID_ARGUMENT | DEADLINE_EXCEEDED
| NOT_FOUND | ALREADY_EXISTS | PERMISSION_DENIED | RESOURCE_EXHAUSTED
| FAILED_PRECONDITION | ABORTED | OUT_OF_RANGE | UNIMPLEMENTED
| INTERNAL | UNAVAILABLE | DATA_LOSS | UNAUTHENTICATED.

#[global] Instance Status_eq_dec : EqDecision Status.
Proof. solve_decision. Defined.

(** The exceptions that can travel through the client and the handler.
    [CancelledError] and [GeneratorExit] derive from [BaseException]
    only; the others derive from [Exception]. *)
Inductive Exc : Type :=
| GRPCError (status : Status) (message : string)
| StreamTerminatedError (message : string)
| OtherException (type_name : string)
| CancelledError
| GeneratorExit.

#[global] Instance Exc_eq_dec : EqDecision Exc.
Proof. solve_decision. Defined.

Definition is_Exception (e : Exc) : bool :=
  match e with
  | CancelledError | GeneratorExit => false
  | _ => true
  end.

End Grpc.
Export Grpc.

(** ** Server side *)

(** Modelled from the spec: the Capture Source, the upstream producer
    behind a registered audio component.  It retains the samples between
    [retention_start] and [head]; [open_streams] counts the capture
    streams currently opened on it. *)
Record CaptureSource : Type := mkSource {
  retention_start : Z;
  head : Z;
  open_streams : nat
}.

Module Server.

(** The server end of one [Stream[GetAudioRequest, AudioChunk]]: the
    request messages still to be read, the ones the handler has read with
    [recv_message], the chunks it has written with [send_message], and
    the status it has set with [send_trailing_metadata], if any. *)
Record ServerStream : Type := mkServerStream {
  incoming : list Message;
  received : list Message;
  sent : list AudioChunk;
  trailing : option (Status * string)
}.

(** [AudioRPCService] inherits from [ResourceRPCServiceBase] the manager
    that maps resource names to the registered components. *)
Record AudioRPCService : Type := mkService {
  manager : gmap string CaptureSource
}.

(** How a coroutine finishes. *)
Inductive Completion : Type :=
| Returned
| Raised (e : Exc).

(** [async def GetAudio(self, stream): return].  The service and the
    stream are threaded through so that what the body does to them shows
    in the result. *)
Definition GetAudio (self : AudioRPCService) (stream : ServerStream)
    : Completion * AudioRPCService * ServerStream :=
  (Returned, self, stream).

(** The transport around a handler (grpclib's server; an external
    collaborator).  A call opens a stream holding the single request. *)
Definition new_stream (request : Message) : ServerStream :=
  {| incoming := [request]; received := []; sent := []; trailing := None |}.

(** The handler runs as a task.  A task cancelled before its first step
    never runs its body; [GetAudio] has no suspension point, so that is
    the only moment a cancellation can reach it. *)
Definition run_handler (cancelled : bool) (self : AudioRPCService)
    (stream : ServerStream) : Completion * AudioRPCService * ServerStream :=
  if cancelled then (Raised CancelledError, self, stream)
  else GetAudio self stream.

(** When the handler of a server-streaming method is done the transport
    closes the stream: with the status the handler set, else [OK] after a
    normal return, else the status of the raised [GRPCError], else
    [UNKNOWN] for another [Exception].  For an exception outside
    [Exception] (a cancellation) the transport sends no trailers at all;
    [serve] never meets that case, [GetAudio] returning normally, and the
    pair given for it only keeps the function total. *)
Definition close_status (c : Completion) (stream : ServerStream)
    : Status * string :=
  match trailing stream with
  | Some st => st
  | None =>
      match c with
      | Returned => (OK, "")
      | Raised (GRPCError s m) => (s, m)
      | Raised CancelledError => (CANCELLED, "Request cancelled")
      | Raised _ => (UNKNOWN, "Internal Server Error")
      end
  end.

(** What goes back over the wire for one call. *)
Record Reply : Type := mkReply {
  reply_chunks : list AudioChunk;
  reply_status : Status * string
}.

Definition serve (self : AudioRPCService) (request : Message)
    : AudioRPCService * Reply :=
  let '(c, self', stream') := GetAudio self (new_stream request) in
  (self', {| reply_chunks := sent stream';
             reply_status := close_status c stream' |}).

End Server.
Export Server.

(** ** Client side *)

Module Client.

(** What the far end of a channel does with one call: the chunks it
    delivers, then how the stream ends.  A failure shows up either in
    [recv_message] (inside the [try]) or when the [async with] block
    collects the trailing status on leaving. *)
Inductive Ending : Type :=
| EndOfStream
| RecvRaises (e : Exc)
| CloseRaises (e : Exc).

Record Response : Type := mkResponse {
  chunks : list AudioChunk;
  ending : Ending
}.

(** A [grpclib.client.Channel], seen from the client: whether
    [send_message] fails on it, and the response to a request. *)
Record Channel : Type := mkChannel {
  send_fault : option Exc;
  respond : Message -> Response
}.

(** [AudioClient.__init__]: [self.channel = channel], the stub is built
    on the same channel, and [super().__init__(name)] stores the name. *)
Record AudioClient : Type := mkClient {
  name : string;
  channel : Channel
}.

Definition AudioClient_init (name : string) (channel : Channel) : AudioClient :=
  {| name := name; channel := channel |}.

(** The calls [read] makes on the stream, in order. *)
Inductive Op : Type :=
| OpOpen
| OpSend (request : Message) (end_ : bool)
| OpRecv (message : option AudioChunk)
| OpRecvRaise (e : Exc)
| OpClose.

#[global] Instance Op_eq_dec : EqDecision Op.
Proof. solve_decision. Defined.

(** The asynchronous generator [read()]: not started yet, suspended at
    [yield audioChunk] with the rest of the response still to come, or
    finished. *)
Inductive Gen : Type :=
| Created
| Suspended (rest : Response)
| Finished.

(** The result of one [__anext__]. *)
Inductive Next : Type :=
| Yield (c : AudioChunk)
| StopAsyncIteration
| Raise (e : Exc).

(** [except Exception as e: raise (e)]: an [Exception] is caught and the
    same object raised again; anything else passes the clause by. *)
Definition except_Exception (e : Exc) : Exc :=
  if is_Exception e then e else e.

(** [async for audioChunk in audio_stream: yield audioChunk], up to the
    next suspension; on every way out the [async with] block closes the
    stream. *)
Definition iterate (resp : Response) : list Op * Next * Gen :=
  match chunks resp with
  | c :: rest =>
      ([OpRecv (Some c)], Yield c,
       Suspended {| chunks := rest; ending := ending resp |})
  | [] =>
      match ending resp with
      | EndOfStream => ([OpRecv None; OpClose], StopAsyncIteration, Finished)
      | RecvRaises e => ([OpRecvRaise e; OpClose], Raise (except_Exception e), Finished)
      | CloseRaises e => ([OpRecv None; OpClose], Raise e, Finished)
      end
  end.

(** One [__anext__] on [read()], for the client [self] and the [request]
    the closure holds. *)
Definition anext (self : AudioClient) (request : Message) (g : Gen)
    : list Op * Next * Gen :=
  match g with
  | Created =>
      match send_fault (channel self) with
      | Some e =>
          ([OpOpen; OpSend request true; OpClose],
           Raise (except_Exception e), Finished)
      | None =>
          let '(ops, r, g') := iterate (respond (channel self) request) in
          ([OpOpen; OpSend request true] ++ ops, r, g')
      end
  | Suspended resp => iterate resp
  | Finished => ([], StopAsyncIteration, Finished)
  end.

(** [aclose()]: a generator that never started just finishes; one
    suspended at the [yield] gets [GeneratorExit] there, which no
    [except Exception] catches, and leaves through the [async with]. *)
Definition aclose (g : Gen) : list Op * Gen :=
  match g with
  | Suspended _ => ([OpClose], Finished)
  | Created | Finished => ([], Finished)
  end.

(** [StreamWithIterator(read())]: the generator and what it closes over. *)
Record StreamWithIterator : Type := mkStream {
  owner : AudioClient;
  request : Message;
  gen : Gen
}.

(** [AudioClient.get_audio], for arguments the message class accepts:
    build the request, return the wrapped generator.  Nothing of [read]'s
    body has run yet.  ([call_get_audio] below adds the arguments the
    message class refuses, and [None].) *)
Definition get_audio (self : AudioClient) (durationSeconds : Z) (codec : string)
    (maxDurationSeconds previousTimestamp : Z) : StreamWithIterator :=
  let request :=
    GetAudioRequest (name self) durationSeconds codec
                    maxDurationSeconds previousTimestamp in
  {| owner := self; request := request; gen := Created |}.

(** How far a consumer got. *)
Inductive Outcome : Type :=
| Pending
| Exhausted
| Failed (e : Exc).

Record Run : Type := mkRun {
  ops : list Op;
  yielded : list AudioChunk;
  outcome : Outcome;
  final : Gen
}.

(** A consumer that asks for at most [n] items, stopping at the first
    [__anext__] that does not yield. *)
Fixpoint pull (n : nat) (self : AudioClient) (request : Message) (g : Gen) : Run :=
  match n with
  | O => {| ops := []; yielded := []; outcome := Pending; final := g |}
  | S n' =>
      let '(o, r, g') := anext self request g in
      match r with
      | Yield c =>
          let rest := pull n' self request g' in
          {| ops := o ++ ops rest; yielded := c :: yielded rest;
             outcome := outcome rest; final := final rest |}
      | StopAsyncIteration =>
          {| ops := o; yielded := []; outcome := Exhausted; final := g' |}
      | Raise e =>
          {| ops := o; yielded := []; outcome := Failed e; final := g' |}
      end
  end.

Definition consume (n : nat) (s : StreamWithIterator) : Run :=
  pull n (owner s) (request s) (gen s).

(** The request messages sent, and the chunks received, in a log. *)
Definition sends (l : list Op) : list (Message * bool) :=
  omap (fun o => match o with OpSend r e => Some (r, e) | _ => None end) l.

Definition receptions (l : list Op) : list AudioChunk :=
  omap (fun o => match o with OpRecv (Some c) => Some c | _ => None end) l.

Definition is_recv (o : Op) : bool :=
  match o with OpRecv _ | OpRecvRaise _ => true | _ => false end.

(** What the channel will raise for a request, if anything, and after
    how many delivered chunks. *)
Definition channel_error (ch : Channel) (request : Message) : option Exc :=
  match send_fault ch with
  | Some e => Some e
  | None =>
      match ending (respond ch request) with
      | EndOfStream => None
      | RecvRaises e | CloseRaises e => Some e
      end
  end.

Definition channel_chunks (ch : Channel) (request : Message) : list AudioChunk :=
  match send_fault ch with
  | Some _ => []
  | None => chunks (respond ch request)
  end.

End Client.
Export Client.

(** ** Both ends together *)

Module Session.

(** The response a client sees for a reply of the server: the chunks,
    then the end of the stream, or a [GRPCError] for a status other than
    [OK] (raised while receiving when no chunk came first). *)
Definition response_of_reply (r : Reply) : Response :=
  {| chunks := reply_chunks r;
     ending :=
       match reply_status r with
       | (OK, _) => EndOfStream
       | (s, m) =>
           match reply_chunks r with
           | [] => RecvRaises (GRPCError s m)
           | _ => CloseRaises (GRPCError s m)
           end
       end |}.

(** A channel to the service [svc] of this repository. *)
Definition channel_to (svc : AudioRPCService) : Channel :=
  {| send_fault := None;
     respond := fun request => response_of_reply (snd (serve svc request)) |}.

(** One session: a client named [nm] connected to [svc] calls
    [get_audio] and asks the returned stream for up to [n] items. *)
Definition session (svc : AudioRPCService) (nm : string) (durationSeconds : Z)
    (codec : string) (maxDurationSeconds previousTimestamp : Z) (n : nat) : Run :=
  consume n (get_audio (AudioClient_init nm (channel_to svc))
                       durationSeconds codec maxDurationSeconds previousTimestamp).

End Session.
Export Session.

(** ** Vocabulary of the properties *)

Module Props.

(** The request names its capture source by [name]. *)
Definition source_of (self : AudioRPCService) (request : Message)
    : option CaptureSource :=
  manager self !! str_field "name" request.

Definition non_positive_rate_or_channels (request : Message) : Prop :=
  int_field "sample_rate" request <= 0 \/ int_field "channels" request <= 0.

Definition valid_request (request : Message) : Prop :=
  0 < int_field "sample_rate" request /\ 0 < int_field "channels" request /\
  0 <= int_field "duration_seconds" request /\
  0 <= int_field "max_duration_seconds" request.

(** The call is refused with status [s] and nothing was streamed. *)
Definition rejected_with (s : Status) (self : AudioRPCService)
    (request : Message) : Prop :=
  fst (reply_status (snd (serve self request))) = s /\
  reply_chunks (snd (serve self request)) = [].

(** Duration accounting by timestamp deltas: every chunk moves the
    cursor to its own timestamp. *)
Fixpoint end_cursor (cursor : Z) (cs : list AudioChunk) : Z :=
  match cs with
  | [] => cursor
  | c :: rest => end_cursor (timestamp c) rest
  end.

Definition delivered_duration (cursor : Z) (cs : list AudioChunk) : Z :=
  end_cursor cursor cs - cursor.

(** The longest single chunk, the tolerance of the duration property. *)
Fixpoint longest_chunk (cursor : Z) (cs : list AudioChunk) : Z :=
  match cs with
  | [] => 0
  | c :: rest => Z.max (timestamp c - cursor) (longest_chunk (timestamp c) rest)
  end.

(** [min(durationSeconds, maxDurationSeconds)], in timestamp ticks. *)
Definition target_duration (ticks_per_second : Z) (request : Message) : Z :=
  ticks_per_second *
  Z.min (int_field "duration_seconds" request)
        (int_field "max_duration_seconds" request).

(** The delivered duration is within [tolerance] of the target. *)
Definition duration_within (tolerance ticks_per_second cursor : Z)
    (request : Message) (cs : list AudioChunk) : Prop :=
  Z.abs (delivered_duration cursor cs - target_duration ticks_per_second request)
  <= tolerance.

(** ... within one chunk: the longest chunk delivered. *)
Definition duration_met (ticks_per_second cursor : Z) (request : Message)
    (cs : list AudioChunk) : Prop :=
  duration_within (longest_chunk cursor cs) ticks_per_second cursor request cs.


(** [previous_timestamp] lies before what the named source retains. *)
Definition evicted (self : AudioRPCService) (request : Message) : Prop :=
  exists src, source_of self request = Some src /\
              int_field "previous_timestamp" request < retention_start src.

(** [previous_timestamp] lies within what the named source retains. *)
Definition resumable (self : AudioRPCService) (request : Message) : Prop :=
  exists src, source_of self request = Some src /\
              retention_start src <= int_field "previous_timestamp" request
              <= head src.

(** The parameters of the two [get_audio] declarations, after [self]. *)
Definition Audio_get_audio_params : list string :=
  ["format"; "sampleRate"; "channels"; "durationSeconds";
   "maxDurationSeconds"; "previousTimestamp"].

Definition AudioClient_get_audio_params : list string :=
  ["durationSeconds"; "codec"; "maxDurationSeconds"; "previousTimestamp"].

(** The closing calls of [read] once the response has no chunk left. *)
Definition closing_ops (e : Ending) : list Op :=
  match e with
  | EndOfStream | CloseRaises _ => [OpRecv None; OpClose]
  | RecvRaises x => [OpRecvRaise x; OpClose]
  end.

Definition closing_outcome (e : Ending) : Outcome :=
  match e with
  | EndOfStream => Exhausted
  | RecvRaises x | CloseRaises x => Failed x
  end.

End Props.
Export Props.

(** ** Concrete services, requests and channels *)

Module Samples.

Definition mic : CaptureSource :=
  {| retention_start := 100; head := 500; open_streams := 0 |}.

Definition svc0 : AudioRPCService := {| manager := {["mic" := mic]} |}.

(** [sampleRate:0]. *)
Definition req_rate0 : Message :=
  <["sample_rate" := VInt 0]> (<["channels" := VInt 1]>
    (GetAudioRequest "mic" 5 "pcm" 10 0)).

(** [{durationSeconds:20, maxDurationSeconds:10}], otherwise valid. *)
Definition req_20_10 : Message :=
  <["sample_rate" := VInt 16000]> (<["channels" := VInt 1]>
    (GetAudioRequest "mic" 20 "pcm" 10 0)).

(** A resumption point older than what [mic] retains. *)
Definition req_stale : Message :=
  <["sample_rate" := VInt 16000]> (<["channels" := VInt 1]>
    (GetAudioRequest "mic" 5 "pcm" 10 40)).

(** A resumption point [mic] still retains. *)
Definition req_resume : Message :=
  <["sample_rate" := VInt 16000]> (<["channels" := VInt 1]>
    (GetAudioRequest "mic" 5 "pcm" 10 300)).

Definition chunk1 : AudioChunk :=
  {| payload := []; timestamp := 310; sequenceNumber := 1 |}.
Definition chunk2 : AudioChunk :=
  {| payload := []; timestamp := 320; sequenceNumber := 2 |}.

(** A far end that delivers two chunks and then fails. *)
Definition failing_channel (e : Ending) : Channel :=
  {| send_fault := None;
     respond := fun _ => {| chunks := [chunk1; chunk2]; ending := e |} |}.

(** A far end that refuses the request before any chunk. *)
Definition refusing_channel : Channel :=
  {| send_fault := None;
     respond := fun _ =>
       {| chunks := [];
          ending := RecvRaises (GRPCError INVALID_ARGUMENT "bad request") |} |}.

Definition broken_channel : Channel :=
  {| send_fault := Some (StreamTerminatedError "Connection lost");
     respond := fun _ => {| chunks := []; ending := EndOfStream |} |}.

End Samples.
Export Samples.

(** ** The life of one client stream *)

Module Lifecycle.

(** Where a client stream stands, as the calls made on it show. *)
Inductive Phase : Type :=
| PhIdle
| PhOpened
| PhSent
| PhEnded
| PhClosed.

#[global] Instance Phase_eq_dec : EqDecision Phase.
Proof. solve_decision. Defined.

(** The calls a stream admits in each phase: open first; then the one
    request, with [end=True]; then messages until the response ends or
    receiving fails; the close last, and nothing after it. *)
Definition phase_step (p : Phase) (o : Op) : option Phase :=
  match p, o with
  | PhIdle, OpOpen => Some PhOpened
  | PhOpened, OpSend _ true => Some PhSent
  | PhSent, OpRecv (Some _) => Some PhSent
  | PhSent, OpRecv None => Some PhEnded
  | PhSent, OpRecvRaise _ => Some PhEnded
  | PhSent, OpClose => Some PhClosed
  | PhEnded, OpClose => Some PhClosed
  | _, _ => None
  end.

Fixpoint phase_after (p : Phase) (l : list Op) : option Phase :=
  match l with
  | [] => Some p
  | o :: rest =>
      match phase_step p o with
      | Some p' => phase_after p' rest
      | None => None
      end
  end.

Definition opens (l : list Op) : nat :=
  length (filter (fun o => o = OpOpen) l).

Definition closes (l : list Op) : nat :=
  length (filter (fun o => o = OpClose) l).

(** A consumer that asks for [n] items and then closes the generator,
    as leaving an [async for] early and finalising the generator does. *)
Definition pull_then_close (n : nat) (self : AudioClient) (request : Message)
    (g : Gen) : list Op * Gen :=
  let run := pull n self request g in
  let '(o, g') := aclose (final run) in
  (ops run ++ o, g').

(** The calls to [recv_message] in a log. *)
Definition recv_calls (l : list Op) : nat :=
  length (filter (fun o => is_recv o = true) l).

(** The run of a generator that has nothing left to do. *)
Definition silent_run : Run :=
  {| ops := []; yielded := []; outcome := Exhausted; final := Finished |}.

End Lifecycle.
Export Lifecycle.

(** ** Calling [get_audio] *)

Module Calls.

(** A keyword argument: Python's [None] is to the message class the same
    as a keyword that was not passed. *)
Definition set_field (f : string) (v : option Value) (m : Message) : Message :=
  match v with
  | Some x => <[f := x]> m
  | None => m
  end.

(** The request of [api.py:42] for arguments any of which may be [None]. *)
Definition build_request (name : string) (duration_seconds : option Z)
    (codec : option string) (max_duration_seconds previous_timestamp : option Z)
    : Message :=
  set_field "name" (Some (VStr name))
    (set_field "duration_seconds" (VInt <$> duration_seconds)
      (set_field "codec" (VStr <$> codec)
        (set_field "max_duration_seconds" (VInt <$> max_duration_seconds)
          (set_field "previous_timestamp" (VInt <$> previous_timestamp) ∅)))).

(** The message class refuses an integer outside the range of its
    field.  The field types belong to the absent [grpc/audio_pb2], so the
    range check [fits] of each field is a parameter. *)
Definition accepts (fits : string -> Z -> bool) (f : string) (v : option Z)
    : bool :=
  match v with
  | Some z => fits f z
  | None => true
  end.

(** A call of [AudioClient.get_audio]: the request is built at once, so
    a refused argument raises [ValueError] out of the call and no stream
    is returned; otherwise the call returns the wrapped generator, not
    yet started. *)
Definition call_get_audio (fits : string -> Z -> bool) (self : AudioClient)
    (durationSeconds : option Z) (codec : option string)
    (maxDurationSeconds previousTimestamp : option Z)
    : Exc + StreamWithIterator :=
  if accepts fits "duration_seconds" durationSeconds &&
     accepts fits "max_duration_seconds" maxDurationSeconds &&
     accepts fits "previous_timestamp" previousTimestamp
  then inr {| owner := self;
              request := build_request (name self) durationSeconds codec
                           maxDurationSeconds previousTimestamp;
              gen := Created |}
  else inl (OtherException "ValueError").

(** Signed 32-bit fields, for the examples. *)
Definition int32 (f : string) (z : Z) : bool :=
  (-2147483648 <=? z) && (z <=? 2147483647).

(** Exactly one request was sent, with [end=True]. *)
Definition one_request_sent (l : list Op) : Prop :=
  exists r, sends l = [(r, true)].

(** There is a first chunk, and its window starts at or after [T]. *)
Definition first_chunk_from (window_start : AudioChunk -> Z) (T : Z)
    (cs : list AudioChunk) : Prop :=
  exists c, hd_error cs = Some c /\ T <= window_start c.


End Calls.
Export Calls.

(** ** The handler *)

Section Handler.

Variable self : AudioRPCService.

(** The body is a bare [return]: the handler completes, and neither the
    service nor the stream is touched. *)
Lemma GetAudio_returns (stream : ServerStream) :
  GetAudio self stream = (Returned, self, stream).
Proof. reflexivity. Qed.

Lemma serve_reply (request : Message) :
  serve self request =
  (self, {| reply_chunks := []; reply_status := (OK, "") |}).
Proof. reflexivity. Qed.

Lemma serve_chunks (request : Message) :
  reply_chunks (snd (serve self request)) = [].
Proof. by rewrite serve_reply. Qed.

Lemma serve_status (request : Message) :
  reply_status (snd (serve self request)) = (OK, "").
Proof. by rewrite serve_reply. Qed.

Lemma run_handler_keeps (cancelled : bool) (stream : ServerStream) :
  snd (run_handler cancelled self stream) = stream /\
  snd (fst (run_handler cancelled self stream)) = self.
Proof. by destruct cancelled. Qed.

End Handler.

(** No status other than [OK] is ever the outcome of a call. *)
Lemma never_rejected (s : Status) (self : AudioRPCService) (request : Message) :
  s <> OK -> ~ rejected_with s self request.
Proof.
  intros Hs [Hst _]. rewrite serve_status in Hst. simpl in Hst. congruence.
Qed.

Lemma delivered_duration_nil (cursor : Z) : delivered_duration cursor [] = 0.
Proof. unfold delivered_duration. simpl. lia. Qed.

(** ** The generator *)

Lemma except_Exception_same (e : Exc) : except_Exception e = e.
Proof. unfold except_Exception. by destruct (is_Exception e). Qed.

Section Generator.

Variables (self : AudioClient) (request : Message).

(** Pulling [n] items from a generator suspended in front of [resp]. *)
Lemma pull_suspended (n : nat) (resp : Response) :
  pull n self request (Suspended resp) =
  {| ops := (OpRecv ∘ Some <$> take n (chunks resp)) ++
            (if (length (chunks resp) <? n)%nat
             then closing_ops (ending resp) else []);
     yielded := take n (chunks resp);
     outcome := if (n <=? length (chunks resp))%nat then Pending
                else closing_outcome (ending resp);
     final := if (n <=? length (chunks resp))%nat
              then Suspended {| chunks := drop n (chunks resp);
                                ending := ending resp |}
              else Finished |}.
Proof.
  revert resp. induction n as [|n IH]; intros [cs e].
  - simpl. by destruct cs.
  - destruct cs as [|c cs].
    + simpl. destruct e; simpl; by rewrite ?except_Exception_same.
    + cbn [pull anext iterate chunks ending]. rewrite IH. simpl.
      reflexivity.
Qed.

(** The first [__anext__] starts the body: open, send, then receive. *)
Lemma pull_created (n : nat) :
  send_fault (channel self) = None ->
  pull (S n) self request Created =
  let r := pull (S n) self request (Suspended (respond (channel self) request)) in
  {| ops := [OpOpen; OpSend request true] ++ ops r; yielded := yielded r;
     outcome := outcome r; final := final r |}.
Proof.
  intros Hok. cbn [pull anext]. rewrite Hok.
  destruct (iterate (respond (channel self) request)) as [[o r] g'].
  by destruct r.
Qed.

Lemma pull_created_fault (n : nat) (e : Exc) :
  send_fault (channel self) = Some e ->
  pull (S n) self request Created =
  {| ops := [OpOpen; OpSend request true; OpClose]; yielded := [];
     outcome := Failed e; final := Finished |}.
Proof.
  intros Hf. cbn [pull anext]. rewrite Hf. by rewrite except_Exception_same.
Qed.

(** A finished generator stays finished and silent. *)
Lemma pull_finished (n : nat) :
  pull n self request Finished =
  {| ops := []; yielded := []; final := Finished;
     outcome := match n with O => Pending | S _ => Exhausted end |}.
Proof. by destruct n. Qed.

End Generator.

(** The log of a suspended generator holds no send, and exactly the
    chunks it yields. *)
Lemma sends_recv_ops (cs : list AudioChunk) (e : Ending) (b : bool) :
  sends ((OpRecv ∘ Some <$> cs) ++ (if b then closing_ops e else [])) = [].
Proof.
  induction cs as [|c cs IH]; simpl.
  - destruct b; [by destruct e | done].
  - exact IH.
Qed.

Lemma receptions_recv_ops (cs : list AudioChunk) (e : Ending) (b : bool) :
  receptions ((OpRecv ∘ Some <$> cs) ++ (if b then closing_ops e else [])) = cs.
Proof.
  induction cs as [|c cs IH].
  - destruct b; [by destruct e | done].
  - change (c :: receptions ((OpRecv ∘ Some <$> cs) ++
                             (if b then closing_ops e else [])) = c :: cs).
    by rewrite IH.
Qed.

Lemma sends_app (l1 l2 : list Op) : sends (l1 ++ l2) = sends l1 ++ sends l2.
Proof. unfold sends. apply omap_app. Qed.

Section ClientRun.

Variables (self : AudioClient) (request : Message).

(** What a consumer gets from a fresh generator: the chunks of the
    channel in their order, as many as it asked for. *)
Lemma pull_created_yielded (n : nat) :
  yielded (pull n self request Created) =
  take n (channel_chunks (channel self) request).
Proof.
  unfold channel_chunks. destruct n as [|n]; [by destruct (send_fault _)|].
  destruct (send_fault (channel self)) as [e|] eqn:Hf.
  - by rewrite (pull_created_fault _ _ _ e Hf).
  - rewrite (pull_created _ _ _ Hf). cbn zeta. by rewrite pull_suspended.
Qed.

(** ... and how its run stands after [n] requests. *)
Lemma pull_created_outcome (n : nat) :
  outcome (pull n self request Created) =
  if (n <=? length (channel_chunks (channel self) request))%nat then Pending
  else match channel_error (channel self) request with
       | Some e => Failed e
       | None => Exhausted
       end.
Proof.
  unfold channel_chunks, channel_error.
  destruct n as [|n]; [by destruct (send_fault _)|].
  destruct (send_fault (channel self)) as [e|] eqn:Hf.
  - by rewrite (pull_created_fault _ _ _ e Hf).
  - rewrite (pull_created _ _ _ Hf). cbn zeta. rewrite pull_suspended.
    cbn [outcome]. destruct (_ <=? _)%nat; [done|].
    by destruct (ending _).
Qed.

(** The log of a fresh generator: nothing before the first request for
    an item; then open, one send with [end=True], and only receptions
    and the close after it. *)
Lemma pull_created_ops (n : nat) :
  exists rest,
    ops (pull (S n) self request Created) =
      OpOpen :: OpSend request true :: rest /\
    sends rest = [] /\
    receptions rest = yielded (pull (S n) self request Created).
Proof.
  destruct (send_fault (channel self)) as [e|] eqn:Hf.
  - rewrite (pull_created_fault _ _ _ e Hf). by exists [OpClose].
  - rewrite (pull_created _ _ _ Hf). cbn zeta. rewrite pull_suspended.
    eexists. split; [reflexivity|]. cbn [ops yielded].
    by rewrite sends_recv_ops, receptions_recv_ops.
Qed.

End ClientRun.

(** A session against the service of this repository. *)
Lemma session_run (svc : AudioRPCService) (nm : string) (d : Z) (codec : string)
    (m T : Z) (n : nat) :
  session svc nm d codec m T n =
  match n with
  | O => {| ops := []; yielded := []; outcome := Pending; final := Created |}
  | S _ =>
      {| ops := [OpOpen; OpSend (GetAudioRequest nm d codec m T) true;
                 OpRecv None; OpClose];
         yielded := []; outcome := Exhausted; final := Finished |}
  end.
Proof. by destruct n. Qed.

(** ** The service endpoint *)

(** C1 (as stated, refuted): a request with [sampleRate = 0] is not
    refused with [InvalidArgument]. *)
Lemma zero_sample_rate_not_refused :
  non_positive_rate_or_channels req_rate0 /\
  ~ rejected_with INVALID_ARGUMENT svc0 req_rate0.
Proof.
  split.
  - left. by vm_compute.
  - by apply never_rejected.
Qed.

(** C1 (amended): for every request with a non-positive [sampleRate] or
    [channels], [GetAudio] returns without raising, leaves the service
    and its capture sources as they were and the stream untouched, and
    the call ends with status [OK] and zero chunks. *)
Theorem GetAudio_non_positive_completes_ok
    (self : AudioRPCService) (request : Message) :
  non_positive_rate_or_channels request ->
  GetAudio self (new_stream request) = (Returned, self, new_stream request) /\
  serve self request =
    (self, {| reply_chunks := []; reply_status := (OK, "") |}).
Proof. intros _. split; [apply GetAudio_returns | apply serve_reply]. Qed.

Lemma GetAudio_non_positive_completes_ok_witness :
  non_positive_rate_or_channels req_rate0 /\
  GetAudio svc0 (new_stream req_rate0) = (Returned, svc0, new_stream req_rate0) /\
  serve svc0 req_rate0 =
    (svc0, {| reply_chunks := []; reply_status := (OK, "") |}).
Proof.
  assert (H : non_positive_rate_or_channels req_rate0) by (left; by vm_compute).
  split; [exact H | exact (GetAudio_non_positive_completes_ok svc0 req_rate0 H)].
Defined.

(** C2 (as stated, refuted): the request
    [{durationSeconds:20, maxDurationSeconds:10}] is valid, and the audio
    delivered for it is not within one chunk of 10 seconds, nor within
    any tolerance below 10 seconds, whatever the unit of the timestamps
    and the starting cursor. *)
Lemma capped_duration_not_streamed :
  valid_request req_20_10 /\
  (~ exists ticks cursor : Z,
       0 < ticks /\
       duration_met ticks cursor req_20_10
                    (reply_chunks (snd (serve svc0 req_20_10)))) /\
  (~ exists ticks cursor tolerance : Z,
       0 < ticks /\ tolerance < 10 * ticks /\
       duration_within tolerance ticks cursor req_20_10
                       (reply_chunks (snd (serve svc0 req_20_10)))).
Proof.
  assert (Hd : int_field "duration_seconds" req_20_10 = 20) by (by vm_compute).
  assert (Hm : int_field "max_duration_seconds" req_20_10 = 10)
    by (by vm_compute).
  split; [by vm_compute|].
  split.
  - intros (ticks & cursor & Hpos & Hmet).
    rewrite serve_chunks in Hmet.
    unfold duration_met, duration_within, target_duration in Hmet.
    rewrite delivered_duration_nil, Hd, Hm in Hmet. simpl in Hmet. lia.
  - intros (ticks & cursor & tol & Hpos & Htol & Hmet).
    rewrite serve_chunks in Hmet.
    unfold duration_within, target_duration in Hmet.
    rewrite delivered_duration_nil, Hd, Hm in Hmet. lia.
Qed.

(** C2 (amended): for every valid request no audio is delivered at all:
    the delivered duration is zero, hence at most
    [min(durationSeconds, maxDurationSeconds)]. *)
Theorem GetAudio_streams_nothing
    (self : AudioRPCService) (request : Message) (ticks cursor : Z) :
  valid_request request -> 0 < ticks ->
  let cs := reply_chunks (snd (serve self request)) in
  cs = [] /\ delivered_duration cursor cs = 0 /\
  delivered_duration cursor cs <= target_duration ticks request.
Proof.
  intros (_ & _ & Hd & Hm) Hticks. cbn zeta. rewrite serve_chunks.
  rewrite delivered_duration_nil. unfold target_duration.
  repeat split; nia.
Qed.

Lemma GetAudio_streams_nothing_witness :
  valid_request req_20_10 /\ 0 < 1000 /\
  reply_chunks (snd (serve svc0 req_20_10)) = [] /\
  delivered_duration 0 (reply_chunks (snd (serve svc0 req_20_10))) = 0 /\
  delivered_duration 0 (reply_chunks (snd (serve svc0 req_20_10)))
    <= target_duration 1000 req_20_10.
Proof.
  assert (Hv : valid_request req_20_10) by (by vm_compute).
  assert (Ht : 0 < 1000) by lia.
  split; [exact Hv|]. split; [exact Ht|].
  exact (GetAudio_streams_nothing svc0 req_20_10 1000 0 Hv Ht).
Defined.

(** ** Sessions *)





(** C4 (as stated, refuted): a request resuming from a timestamp the
    source no longer retains is not refused with [OutOfRange]. *)
Lemma stale_resume_not_refused :
  evicted svc0 req_stale /\ ~ rejected_with OUT_OF_RANGE svc0 req_stale.
Proof.
  split.
  - exists mic. split; by vm_compute.
  - by apply never_rejected.
Qed.

(** C4 (amended): for every request whose [previousTimestamp] is older
    than the retention window of its source, the call ends with status
    [OK], zero chunks are emitted, and the service is left as it was. *)
Theorem GetAudio_stale_resume_completes_ok
    (self : AudioRPCService) (request : Message) :
  evicted self request ->
  serve self request =
    (self, {| reply_chunks := []; reply_status := (OK, "") |}) /\
  reply_chunks (snd (serve self request)) = [].
Proof. intros _. split; [apply serve_reply | apply serve_chunks]. Qed.

Lemma GetAudio_stale_resume_completes_ok_witness :
  evicted svc0 req_stale /\
  serve svc0 req_stale =
    (svc0, {| reply_chunks := []; reply_status := (OK, "") |}) /\
  reply_chunks (snd (serve svc0 req_stale)) = [].
Proof.
  assert (H : evicted svc0 req_stale)
    by (exists mic; split; by vm_compute).
  split; [exact H | exact (GetAudio_stale_resume_completes_ok svc0 req_stale H)].
Defined.

(** C5 (as stated, refuted): a session resumed from a timestamp the
    source still retains has no first chunk, whatever the window of a
    chunk is taken to be. *)
Lemma resumed_session_has_no_first_chunk :
  resumable svc0 req_resume /\
  ~ exists window_start : AudioChunk -> Z,
      first_chunk_from window_start
                       (int_field "previous_timestamp" req_resume)
                       (reply_chunks (snd (serve svc0 req_resume))).
Proof.
  split.
  - exists mic. split; by vm_compute.
  - intros (ws & c & Hhead & _). by rewrite serve_chunks in Hhead.
Qed.

(** C5 (amended): for every session resumed from a timestamp [T] the
    source still retains, no chunk is delivered at all: the call ends
    with status [OK] and an empty stream, so there is no first chunk, and
    nothing of a prior session is delivered again. *)
Theorem GetAudio_resume_delivers_nothing
    (self : AudioRPCService) (request : Message) :
  resumable self request ->
  serve self request =
    (self, {| reply_chunks := []; reply_status := (OK, "") |}) /\
  reply_chunks (snd (serve self request)) = [] /\
  hd_error (reply_chunks (snd (serve self request))) = None.
Proof.
  intros _. split; [apply serve_reply|].
  by rewrite serve_chunks.
Qed.

Lemma GetAudio_resume_delivers_nothing_witness :
  resumable svc0 req_resume /\
  serve svc0 req_resume =
    (svc0, {| reply_chunks := []; reply_status := (OK, "") |}) /\
  reply_chunks (snd (serve svc0 req_resume)) = [] /\
  hd_error (reply_chunks (snd (serve svc0 req_resume))) = None.
Proof.
  assert (H : resumable svc0 req_resume)
    by (exists mic; split; by vm_compute).
  split; [exact H | exact (GetAudio_resume_delivers_nothing svc0 req_resume H)].
Defined.

(** C6: a cancellation ends emission.  The handler, cancelled or not,
    writes no chunk and leaves the service untouched; on the client, a
    cancellation reaching [read] while it waits for the next message
    goes out through the [async with]: the chunks already yielded stay
    as they are, the stream is closed, the generator is finished, and no
    later request for an item yields anything. *)
Theorem cancellation_stops_emission
    (svc : AudioRPCService) (stream : ServerStream) (cancelled : bool)
    (nm : string) (request : Message) (cs : list AudioChunk) (extra k : nat) :
  sent (snd (run_handler cancelled svc stream)) = sent stream /\
  snd (fst (run_handler cancelled svc stream)) = svc /\
  let ch := {| send_fault := None;
               respond := fun _ => {| chunks := cs;
                                      ending := RecvRaises CancelledError |} |} in
  let run := pull (S (length cs + extra)) (AudioClient_init nm ch)
                  request Created in
  yielded run = cs /\ outcome run = Failed CancelledError /\
  last (ops run) = Some OpClose /\ final run = Finished /\
  yielded (pull k (AudioClient_init nm ch) request (final run)) = [] /\
  ops (pull k (AudioClient_init nm ch) request (final run)) = [].
Proof.
  destruct (run_handler_keeps svc cancelled stream) as [-> ->].
  split; [done|]. split; [done|]. cbn zeta.
  rewrite pull_created by done. cbn zeta. rewrite pull_suspended.
  cbn [ops yielded outcome final chunks ending respond channel
       AudioClient_init].
  assert (Hlt : (length cs <? S (length cs + extra))%nat = true)
    by (apply Nat.ltb_lt; lia).
  assert (Hle : (S (length cs + extra) <=? length cs)%nat = false)
    by (apply Nat.leb_gt; lia).
  rewrite Hlt, Hle, pull_finished. cbn [ops yielded closing_ops closing_outcome].
  repeat split.
  - apply take_ge. lia.
  - change [OpRecvRaise CancelledError; OpClose]
      with ([OpRecvRaise CancelledError] ++ [OpClose]).
    by rewrite !app_assoc, last_snoc.
Qed.

(** ** The client *)

(** C7 (the code falls short of it): the request [get_audio] builds
    carries exactly [name], [duration_seconds], [codec],
    [max_duration_seconds] and [previous_timestamp]; the sample rate and
    the channel count, which the abstract [Audio.get_audio] declares,
    are neither parameters of [AudioClient.get_audio] nor fields of the
    request it sends. *)
Theorem get_audio_request_omits_rate_and_channels
    (self : AudioClient) (d : Z) (codec : string) (m T : Z) :
  let req := request (get_audio self d codec m T) in
  dom req = ({["name"; "duration_seconds"; "codec"; "max_duration_seconds";
               "previous_timestamp"]} : gset string) /\
  carries "sample_rate" req = false /\ carries "sampleRate" req = false /\
  carries "channels" req = false /\ carries "format" req = false /\
  ("sampleRate" ∈ Audio_get_audio_params) /\
  ("sampleRate" ∉ AudioClient_get_audio_params) /\
  ("channels" ∈ Audio_get_audio_params) /\
  ("channels" ∉ AudioClient_get_audio_params).
Proof.
  cbn zeta. cbn [get_audio request]. unfold GetAudioRequest, carries.
  split; [rewrite !dom_insert_L; set_solver|].
  assert (Habsent : forall f : string,
            f ∉ ["name"; "duration_seconds"; "codec"; "max_duration_seconds";
                 "previous_timestamp"] ->
            bool_decide (is_Some
              ((<["name":=VStr (name self)]> (<["duration_seconds":=VInt d]>
                 (<["codec":=VStr codec]> (<["max_duration_seconds":=VInt m]>
                   (<["previous_timestamp":=VInt T]> ∅)))) : Message) !! f))
            = false).
  { intros f Hf. apply bool_decide_eq_false. intros [v Hv].
    rewrite !not_elem_of_cons in Hf. destruct Hf as (?&?&?&?&?&_).
    rewrite !lookup_insert_ne in Hv by done. by rewrite lookup_empty in Hv. }
  unfold Audio_get_audio_params, AudioClient_get_audio_params.
  repeat split; try apply Habsent;
    rewrite ?not_elem_of_cons, ?elem_of_cons;
    repeat split; try done; try apply not_elem_of_nil; auto 10.
Qed.

(** The same at one call. *)
Example get_audio_request_at_mic :
  let req := request (get_audio (AudioClient_init "mic" broken_channel)
                                5 "pcm" 10 0) in
  int_field "sample_rate" req = 0 /\ int_field "channels" req = 0 /\
  str_field "codec" req = "pcm" /\ size req = 5%nat.
Proof. by vm_compute. Qed.

(** C8: the run of [read] stops with an error exactly when the channel
    raised one, with that very error, after yielding the chunks that
    arrived before it and no others; an error that arrives before any
    chunk is raised by the first request for an item, with nothing
    yielded. *)
Theorem read_propagates_errors
    (self : AudioClient) (d : Z) (codec : string) (m T : Z) (n : nat) :
  let s := get_audio self d codec m T in
  let run := consume n s in
  let arriving := channel_chunks (channel self) (request s) in
  yielded run = take n arriving /\
  outcome run =
    (if (n <=? length arriving)%nat then Pending
     else match channel_error (channel self) (request s) with
          | Some e => Failed e
          | None => Exhausted
          end) /\
  (forall e, channel_error (channel self) (request s) = Some e ->
             arriving = [] -> (0 < n)%nat ->
             yielded run = [] /\ outcome run = Failed e).
Proof.
  cbn zeta. unfold consume. cbn [get_audio owner request gen].
  rewrite pull_created_yielded, pull_created_outcome.
  split; [done|]. split; [done|].
  intros e -> -> Hn. destruct n; [lia|]. done.
Qed.

Lemma read_propagates_errors_witness :
  let s := get_audio (AudioClient_init "mic" refusing_channel) 5 "pcm" 10 0 in
  yielded (consume 3 s) = [] /\
  outcome (consume 3 s) = Failed (GRPCError INVALID_ARGUMENT "bad request").
Proof.
  cbn zeta.
  apply (read_propagates_errors (AudioClient_init "mic" refusing_channel)
           5 "pcm" 10 0 3); [reflexivity | reflexivity | lia].
Defined.

(** Errors after some chunks, and a failing send. *)
Example read_fails_midstream :
  let s := get_audio (AudioClient_init "mic"
             (failing_channel (CloseRaises (GRPCError UNAVAILABLE "device lost"))))
             5 "pcm" 10 0 in
  yielded (consume 9 s) = [chunk1; chunk2] /\
  outcome (consume 9 s) = Failed (GRPCError UNAVAILABLE "device lost") /\
  outcome (consume 2 s) = Pending.
Proof. by vm_compute. Qed.

Example read_fails_on_send :
  let s := get_audio (AudioClient_init "mic" broken_channel) 5 "pcm" 10 0 in
  yielded (consume 1 s) = [] /\
  outcome (consume 1 s) = Failed (StreamTerminatedError "Connection lost") /\
  last (ops (consume 1 s)) = Some OpClose.
Proof. by vm_compute. Qed.

(** C9: the handler returns at once: it reads no request, writes no
    chunk and sets no status, so the call closes with [OK] and no chunk,
    and whatever the parameters the client yields nothing and meets no
    error. *)
Theorem GetAudio_is_empty_stream
    (self : AudioRPCService) (stream : ServerStream) (request : Message)
    (nm : string) (d : Z) (codec : string) (m T : Z) (n : nat) :
  GetAudio self stream = (Returned, self, stream) /\
  received (snd (GetAudio self stream)) = received stream /\
  sent (snd (GetAudio self stream)) = sent stream /\
  trailing (snd (GetAudio self stream)) = trailing stream /\
  serve self request =
    (self, {| reply_chunks := []; reply_status := (OK, "") |}) /\
  yielded (session self nm d codec m T n) = [] /\
  outcome (session self nm d codec m T n) =
    match n with O => Pending | S _ => Exhausted end.
Proof. rewrite session_run. repeat split; by destruct n. Qed.

(** C10 (as stated, refuted): a call of [get_audio] whose stream is never
    asked for an item sends no request, not one, also when the stream is
    closed afterwards. *)
Lemma unconsumed_stream_sends_nothing :
  let s := get_audio (AudioClient_init "mic" (failing_channel EndOfStream))
                     5 "pcm" 10 0 in
  sends (ops (consume 0 s)) = [] /\
  ~ one_request_sent (ops (consume 0 s)) /\
  ~ one_request_sent
      (fst (pull_then_close 0 (owner s) (request s) (gen s))).
Proof.
  cbn zeta. split; [done|].
  split; intros [r Hr]; discriminate Hr.
Qed.

(** C10 (amended): a call of [get_audio] either raises [ValueError],
    for an integer its field refuses, and returns no stream, or returns
    a stream that has not started.  Such a stream sends nothing until it
    is first asked for an item; from then on exactly one request has been
    sent, with [end=True], and it stands in the log before every
    reception; its name field reads as the name the client was built
    with; the chunks yielded are the first chunks of the response, as
    received and in the order of reception. *)
Theorem get_audio_sends_one_request_once_iterated
    (fits : string -> Z -> bool) (nm : string) (ch : Channel)
    (d : option Z) (codec : option string) (m T : option Z) (n : nat) :
  match call_get_audio fits (AudioClient_init nm ch) d codec m T with
  | inl e => e = OtherException "ValueError"
  | inr s =>
      let run := consume (S n) s in
      owner s = AudioClient_init nm ch /\ gen s = Created /\
      str_field "name" (request s) = nm /\
      sends (ops (consume 0 s)) = [] /\
      sends (ops run) = [(request s, true)] /\
      (forall pre o post, ops run = pre ++ o :: post -> is_recv o = true ->
                          sends pre = [(request s, true)]) /\
      yielded run = take (S n) (channel_chunks ch (request s)) /\
      receptions (ops run) = yielded run
  end.
Proof.
  unfold call_get_audio. destruct (_ && _); [|done].
  cbn zeta. unfold consume. cbn [owner request gen].
  set (self := AudioClient_init nm ch).
  set (req := build_request (name self) d codec m T).
  split; [done|]. split; [done|].
  split.
  { unfold req, build_request, str_field. cbn [set_field].
    by rewrite lookup_insert_eq. }
  split; [done|].
  rewrite (pull_created_yielded self req (S n)).
  destruct (pull_created_ops self req n) as (rest & Hops & Hs & Hr).
  rewrite (pull_created_yielded self req (S n)) in Hr.
  rewrite Hops. repeat split.
  - change (sends (OpOpen :: OpSend req true :: rest))
      with ((req, true) :: sends rest). by rewrite Hs.
  - intros pre o post Heq Ho.
    destruct pre as [|x [|y pre]]; simplify_eq/=; try done.
    rewrite sends_app in Hs. apply app_eq_nil in Hs as [Hpre _].
    change (sends (OpOpen :: OpSend req true :: pre))
      with ((req, true) :: sends pre). by rewrite Hpre.
  - exact Hr.
Qed.

Lemma get_audio_sends_one_request_once_iterated_witness :
  let s := get_audio (AudioClient_init "mic" (failing_channel EndOfStream))
                     5 "pcm" 10 0 in
  sends [OpOpen; OpSend (request s) true; OpRecv (Some chunk1)]
  = [(request s, true)].
Proof.
  cbn zeta.
  refine (proj1 (proj2 (proj2 (proj2 (proj2 (proj2
    (get_audio_sends_one_request_once_iterated int32 "mic"
       (failing_channel EndOfStream) (Some 5) (Some "pcm") (Some 10) (Some 0)
       8))))))
    [OpOpen; OpSend _ true; OpRecv (Some chunk1)] (OpRecv (Some chunk2))
    [OpRecv None; OpClose] _ _); reflexivity.
Defined.

(** For arguments that are given and accepted the call is [get_audio]. *)
Lemma call_get_audio_accepted
    (fits : string -> Z -> bool) (self : AudioClient) (d : Z) (codec : string)
    (m T : Z) :
  fits "duration_seconds" d = true -> fits "max_duration_seconds" m = true ->
  fits "previous_timestamp" T = true ->
  call_get_audio fits self (Some d) (Some codec) (Some m) (Some T)
  = inr (get_audio self d codec m T).
Proof. intros Hd Hm HT. unfold call_get_audio. cbn [accepts]. by rewrite Hd, Hm, HT. Qed.

(** An integer its field refuses: the call raises, there is no stream. *)
Example get_audio_refuses_out_of_range :
  call_get_audio int32 (AudioClient_init "mic" (failing_channel EndOfStream))
                 (Some 4294967296) (Some "pcm") (Some 10) None
  = inl (OtherException "ValueError").
Proof. reflexivity. Qed.

(** ** The life of a client stream *)

Lemma phase_after_app (p : Phase) (l1 l2 : list Op) :
  phase_after p (l1 ++ l2) =
  match phase_after p l1 with
  | Some p' => phase_after p' l2
  | None => None
  end.
Proof.
  revert p. induction l1 as [|o l1 IH]; intros p; [done|].
  simpl. destruct (phase_step p o); [apply IH | done].
Qed.

Lemma phase_after_receptions (cs : list AudioChunk) (tail : list Op) :
  phase_after PhSent ((OpRecv ∘ Some <$> cs) ++ tail) = phase_after PhSent tail.
Proof. induction cs as [|c cs IH]; [done | exact IH]. Qed.

Lemma opens_receptions (cs : list AudioChunk) (tail : list Op) :
  opens ((OpRecv ∘ Some <$> cs) ++ tail) = opens tail.
Proof.
  unfold opens. induction cs as [|c cs IH]; [done|].
  simpl. by rewrite filter_cons_False.
Qed.

Lemma closes_receptions (cs : list AudioChunk) (tail : list Op) :
  closes ((OpRecv ∘ Some <$> cs) ++ tail) = closes tail.
Proof.
  unfold closes. induction cs as [|c cs IH]; [done|].
  simpl. by rewrite filter_cons_False.
Qed.

Lemma closing_ops_phase (e : Ending) :
  phase_after PhSent (closing_ops e) = Some PhClosed /\
  opens (closing_ops e) = 0%nat /\ closes (closing_ops e) = 1%nat /\
  last (closing_ops e) = Some OpClose /\ closing_outcome e <> Pending.
Proof. by destruct e. Qed.

Section Started.

Variables (self : AudioClient) (request : Message).

(** The run of a started generator on a channel that took the request:
    if the consumer asked for no more than there was, the log is the
    opening and as many receptions, and the generator waits; otherwise
    the log goes on to the closing calls, and the generator is done. *)
Lemma pull_created_started (n : nat) :
  send_fault (channel self) = None ->
  let cs := chunks (respond (channel self) request) in
  let e := ending (respond (channel self) request) in
  pull (S n) self request Created =
  if (S n <=? length cs)%nat
  then {| ops := OpOpen :: OpSend request true ::
                 ((OpRecv ∘ Some <$> take (S n) cs) ++ []);
          yielded := take (S n) cs; outcome := Pending;
          final := Suspended {| chunks := drop (S n) cs; ending := e |} |}
  else {| ops := OpOpen :: OpSend request true ::
                 ((OpRecv ∘ Some <$> take (S n) cs) ++ closing_ops e);
          yielded := take (S n) cs; outcome := closing_outcome e;
          final := Finished |}.
Proof.
  intros Hok. cbn zeta. rewrite (pull_created _ _ _ Hok). cbn zeta.
  rewrite pull_suspended, Nat.ltb_antisym.
  by destruct (S n <=? _)%nat.
Qed.

End Started.

(** X2: whatever the channel does and however many items are asked for,
    the calls [read] makes follow the order a stream admits: open, the
    one request with [end=True], receptions, and the close last; the
    stream is closed exactly when the run has ended. *)
Theorem read_follows_stream_protocol
    (self : AudioClient) (request : Message) (n : nat) :
  let run := pull n self request Created in
  phase_after PhIdle (ops run) =
  Some match n with
       | O => PhIdle
       | S _ => match outcome run with
                | Pending => PhSent
                | _ => PhClosed
                end
       end.
Proof.
  cbn zeta. destruct n as [|n]; [done|].
  destruct (send_fault (channel self)) as [e|] eqn:Hf.
  - by rewrite (pull_created_fault _ _ _ e Hf).
  - rewrite (pull_created_started _ _ _ Hf). cbn zeta.
    destruct (S n <=? _)%nat; cbn [ops outcome phase_after phase_step];
      rewrite phase_after_receptions; [done|].
    destruct (closing_ops_phase (ending (respond (channel self) request)))
      as (-> & _ & _ & _ & Hout).
    by destruct (closing_outcome _).
Qed.

Lemma closes_opening (request : Message) (l : list Op) :
  closes (OpOpen :: OpSend request true :: l) = closes l.
Proof. unfold closes. by rewrite !filter_cons_False. Qed.

Lemma opens_opening (request : Message) (l : list Op) :
  opens (OpOpen :: OpSend request true :: l) = S (opens l).
Proof.
  unfold opens. rewrite filter_cons_True by done.
  by rewrite filter_cons_False.
Qed.

Lemma closes_app (l1 l2 : list Op) : closes (l1 ++ l2) = (closes l1 + closes l2)%nat.
Proof. unfold closes. by rewrite filter_app, length_app. Qed.

Lemma opens_app (l1 l2 : list Op) : opens (l1 ++ l2) = (opens l1 + opens l2)%nat.
Proof. unfold opens. by rewrite filter_app, length_app. Qed.

(** X3: while a run can still go on, [read] has not closed the stream;
    once it has ended, by exhaustion or by an error, the stream was
    closed exactly once, as the last call, the generator is finished, and
    asking it again yields nothing, raises nothing and calls nothing. *)
Theorem read_closes_when_done
    (self : AudioClient) (request : Message) (n k : nat) :
  let run := pull n self request Created in
  match outcome run with
  | Pending => closes (ops run) = 0%nat /\ final run <> Finished
  | _ => closes (ops run) = 1%nat /\ last (ops run) = Some OpClose /\
         final run = Finished /\
         pull (S k) self request (final run) = silent_run
  end.
Proof.
  cbn zeta. destruct n as [|n]; [done|].
  destruct (send_fault (channel self)) as [e|] eqn:Hf.
  - by rewrite (pull_created_fault _ _ _ e Hf).
  - rewrite (pull_created_started _ _ _ Hf). cbn zeta.
    destruct (S n <=? _)%nat; cbn [ops outcome final].
    + by rewrite closes_opening, closes_receptions.
    + destruct (closing_ops_phase (ending (respond (channel self) request)))
        as (_ & _ & Hc & Hl & Hout).
      assert (Hfacts :
        closes (OpOpen :: OpSend request true ::
                (OpRecv ∘ Some <$>
                   take (S n) (chunks (respond (channel self) request))) ++
                closing_ops (ending (respond (channel self) request))) = 1%nat /\
        last (OpOpen :: OpSend request true ::
              (OpRecv ∘ Some <$>
                 take (S n) (chunks (respond (channel self) request))) ++
              closing_ops (ending (respond (channel self) request)))
        = Some OpClose).
      { split; [by rewrite closes_opening, closes_receptions|].
        destruct (ending (respond (channel self) request)); cbn [closing_ops];
          rewrite !app_comm_cons;
          match goal with
          | |- last (?l ++ [?a; ?b]) = _ =>
              change (l ++ [a; b]) with (l ++ [a] ++ [b]);
              by rewrite app_assoc, last_snoc
          end. }
      destruct Hfacts as [Hc' Hl'].
      by destruct (closing_outcome _).
Qed.

(** X5: a consumer that stops after [n] items and closes the generator
    leaves no stream open: the generator is finished, the stream was
    opened as often as it was closed and the calls are in the order a
    stream admits; a stream never asked for an item makes no call at all,
    so no request is sent for it. *)
Theorem abandoned_stream_is_released
    (self : AudioClient) (request : Message) (n : nat) :
  let log := fst (pull_then_close n self request Created) in
  snd (pull_then_close n self request Created) = Finished /\
  opens log = closes log /\
  opens log = match n with O => 0%nat | S _ => 1%nat end /\
  phase_after PhIdle log =
    Some match n with O => PhIdle | S _ => PhClosed end.
Proof.
  cbn zeta. unfold pull_then_close. destruct n as [|n]; [done|].
  destruct (send_fault (channel self)) as [e|] eqn:Hf.
  - by rewrite (pull_created_fault _ _ _ e Hf).
  - rewrite (pull_created_started _ _ _ Hf). cbn zeta.
    destruct (closing_ops_phase (ending (respond (channel self) request)))
      as (Hp & Ho & Hc & _ & _).
    destruct (S n <=? _)%nat; cbn [ops final aclose fst snd app];
      rewrite opens_opening, closes_opening, opens_app, closes_app,
        opens_receptions, closes_receptions;
      cbn [phase_after phase_step];
      rewrite phase_after_app, phase_after_receptions.
    + done.
    + rewrite Ho, Hc, Hp. done.
Qed.

Lemma receptions_app (l1 l2 : list Op) :
  receptions (l1 ++ l2) = receptions l1 ++ receptions l2.
Proof. unfold receptions. apply omap_app. Qed.

Lemma receptions_of_chunks (cs : list AudioChunk) :
  receptions (OpRecv ∘ Some <$> cs) = cs.
Proof.
  induction cs as [|c cs IH]; [done|].
  change (c :: receptions (OpRecv ∘ Some <$> cs) = c :: cs). by rewrite IH.
Qed.

Lemma recv_calls_app (l1 l2 : list Op) :
  recv_calls (l1 ++ l2) = (recv_calls l1 + recv_calls l2)%nat.
Proof. unfold recv_calls. by rewrite filter_app, length_app. Qed.

Lemma recv_calls_of_chunks (cs : list AudioChunk) :
  recv_calls (OpRecv ∘ Some <$> cs) = length cs.
Proof.
  unfold recv_calls. induction cs as [|c cs IH]; [done|].
  rewrite fmap_cons, filter_cons_True by done. simpl. by rewrite IH.
Qed.

Lemma closing_ops_receive_once (e : Ending) :
  receptions (closing_ops e) = [] /\ recv_calls (closing_ops e) = 1%nat.
Proof. by destruct e. Qed.

(** X6: [read] takes messages from the stream on demand only: for [n]
    items asked it calls [recv_message] at most [n] times, and the chunks
    it has received are the first [n] of the response, none beyond. *)
Theorem read_receives_on_demand
    (self : AudioClient) (request : Message) (n : nat) :
  let run := pull n self request Created in
  receptions (ops run) = take n (channel_chunks (channel self) request) /\
  (recv_calls (ops run) <= n)%nat.
Proof.
  cbn zeta. unfold channel_chunks.
  destruct n as [|n]; [by destruct (send_fault _)|].
  destruct (send_fault (channel self)) as [e|] eqn:Hf.
  - rewrite (pull_created_fault _ _ _ e Hf). split; [done|].
    cbn [ops]. unfold recv_calls. rewrite !filter_cons_False by done.
    simpl. lia.
  - rewrite (pull_created_started _ _ _ Hf). cbn zeta.
    assert (Hopening : recv_calls [OpOpen; OpSend request true] = 0%nat)
      by (unfold recv_calls; by rewrite !filter_cons_False).
    destruct (closing_ops_receive_once (ending (respond (channel self) request)))
      as [Hr Hc].
    destruct (Nat.leb_spec (S n) (length (chunks (respond (channel self) request))))
      as [Hle|Hgt]; cbn [ops];
      change (OpOpen :: OpSend request true :: ?l)
        with ([OpOpen; OpSend request true] ++ l);
      rewrite !receptions_app, !recv_calls_app, receptions_of_chunks,
        recv_calls_of_chunks, length_take.
    + rewrite Hopening. split; [by rewrite app_nil_r|].
      change (recv_calls []) with 0%nat. lia.
    + rewrite Hopening, Hr, Hc. split; [by rewrite app_nil_r|]. lia.
Qed.
